(** * lola: a warm Python worker with a subprocess-like client API

    Shallow embedding of [lola.py]: the client handle [Runner]
    ([close], [call], [check_call], [check_output], [_call], [mkfd]),
    the worker loop [listen], and [_PyPopen] with its child-side hook
    [exec_python].  The script run by [execfile], the pre-exec hook and
    the operating-system side of [subprocess.Popen] are external to the
    file; they are taken as section variables or as small documented
    models of the Python 2 library. *)

From Stdlib Require Import ZArith Lia.
From stdpp Require Import base option list gmap strings pretty.

Local Open Scope Z_scope.

(** ** Python values *)

(** Python 2 [str]: a byte string. *)
Abbreviation bytes := string.

Definition nl : string := String (Ascii.ascii_of_nat 10) EmptyString.

(** What [SystemExit.code] can hold.  [PyBool] is an [int] instance in
    Python; [PyOther] is any object that is neither [None] nor an [int]
    instance (strings, Python 2 [long]s, tuples, ...), carried with the
    text [str()] gives for it. *)
Inductive pyobj :=
| PyNone
| PyInt (n : Z)
| PyBool (b : bool)
| PyOther (str : string).

(** [isinstance(o, int)], with the integer value when it holds. *)
Definition isinstance_int (o : pyobj) : option Z :=
  match o with
  | PyInt n => Some n
  | PyBool b => Some (if b then 1 else 0)
  | _ => None
  end.

Definition is_None (o : pyobj) : bool :=
  match o with PyNone => true | _ => false end.

(** [str(o)] as [print] renders it. *)
Definition py_str (o : pyobj) : string :=
  match o with
  | PyNone => "None"
  | PyInt n => pretty n
  | PyBool b => if b then "True" else "False"
  | PyOther s => s
  end.

(** The [args] parameter of [Popen]: one string or a sequence. *)
Inductive pyargs :=
| ArgStr (s : string)
| ArgList (l : list string).

Inductive exn :=
| ValueError (msg : string)
| TypeError (msg : string)
| IndexError
| EOFError
| IOError
| OSError
| OverflowError
| CalledProcessError (returncode : Z) (cmd : pyargs) (output : option bytes).

(** Outcome of a Python call: a value, a raised exception, or a call
    that never returns. *)
Inductive result (A : Type) :=
| Return (a : A)
| Raise (e : exn)
| Blocks.
Arguments Return {A} a.
Arguments Raise {A} e.
Arguments Blocks {A}.

(** ** The job body and the child's streams *)

Inductive stream := Stdout | Stderr.

#[global] Instance stream_eq_dec : EqDecision stream.
Proof. solve_decision. Defined.

(** One write that reaches a descriptor of the child. *)
Abbreviation wevent := (stream * bytes)%type.

(** How the script run by [execfile] ends. *)
Inductive termination :=
| Completed
| SystemExit (code : pyobj)
| Fault (traceback : string).

(** What the script did: the writes that reached descriptors 1 and 2,
    what is still in the buffer of [sys.stdout], and how it ended. *)
Record body_result := BodyResult {
  writes : list wevent;
  unflushed : bytes;
  ending : termination
}.

(** The child after [os._exit]: the argument given to [os._exit] and
    everything written to descriptors 1 and 2. *)
Record child_exit := ChildExit {
  exit_arg : Z;
  output : list wevent
}.

(** [sys.stdout.flush()]. *)
Definition flush_stdout (r : body_result) : list wevent :=
  writes r ++ [(Stdout, unflushed r)].

(** The [try ... except SystemExit ... except ... else] block of
    [exec_python], given what [execfile] did. *)
Definition exit_translation (r : body_result) : child_exit :=
  match ending r with
  | SystemExit code =>
      let out := flush_stdout r in
      match isinstance_int code with
      | Some n => ChildExit n out
      | None =>
          if is_None code then ChildExit 0 out
          else ChildExit 1 (out ++ [(Stderr, py_str code +:+ nl)])
      end
  | Fault tb =>
      let out := flush_stdout r in
      ChildExit 255 (out ++ [(Stderr, tb)])
  | Completed =>
      ChildExit 0 (flush_stdout r)
  end.

(** The bytes of the writes selected by [p], in write order. *)
Definition captured_text (p : stream -> bool) (evs : list wevent) : bytes :=
  foldr (fun ev acc => if p ev.1 then ev.2 +:+ acc else acc) EmptyString evs.

(** The bytes a stream received, in write order. *)
Definition stream_text (s : stream) (evs : list wevent) : bytes :=
  captured_text (fun x => bool_decide (x = s)) evs.

(** [WEXITSTATUS]: the parent's [poll()] sees the low eight bits of the
    argument of [os._exit]. *)
Definition wait_status (n : Z) : Z := n `mod` 256.

(** [os._exit] takes a C [int]: with an argument outside its range it
    raises [OverflowError] and the process does not exit there. *)
Definition fits_c_int (n : Z) : bool :=
  (- 2 ^ 31 <=? n) && (n <? 2 ^ 31).

(** ** Stdio targets and the request tuple *)

(** [subprocess.PIPE] and [subprocess.STDOUT]. *)
Definition PIPE : Z := -1.
Definition STDOUT : Z := -2.

(** A stdio argument as the caller gives it.  [FpPIPE] and [FpSTDOUT]
    are the integers -1 and -2; [FpInt] is any other integer that can
    name a descriptor (so it is not negative); [FpFile] is an open file
    object, with the number its [fileno()] returns. *)
Inductive fp :=
| FpNone
| FpSTDOUT
| FpPIPE
| FpInt (fd : N)
| FpFile (fileno : N).

(** A stdio value as it travels in the request and as [Popen] gets it:
    [None] or an integer (a sentinel, an index or a descriptor). *)
Inductive slot :=
| SNone
| SInt (z : Z).

#[global] Instance slot_eq_dec : EqDecision slot.
Proof. solve_decision. Defined.

(** [fp in (None, subprocess.STDOUT, subprocess.PIPE)], giving the value
    returned as it is. *)
Definition sentinel (x : fp) : option slot :=
  match x with
  | FpNone => Some SNone
  | FpSTDOUT => Some (SInt STDOUT)
  | FpPIPE => Some (SInt PIPE)
  | _ => None
  end.

(** [mkfd] of [Runner._call]; [fds] is the list it appends to. *)
Definition mkfd (fds : list Z) (x : fp) : slot * list Z :=
  match sentinel x with
  | Some s => (s, fds)
  | None =>
      let fds' :=
        match x with
        | FpInt fd => fds ++ [Z.of_N fd]
        | FpFile fileno => fds ++ [Z.of_N fileno]
        | _ => fds
        end in
      (SInt (Z.of_nat (length fds') - 1), fds')
  end.

(** The pre-exec hook: code run in the child, seen through what it
    does to [os.environ] and whether it raises. *)
Abbreviation hook := (gmap string string -> result (gmap string string)).

(** The tuple sent over the connection: the parameters of [Popen] in
    order.  [startupinfo] records whether the value is not [None]. *)
Record request := Request {
  args : pyargs;
  bufsize : Z;
  executable : option string;
  stdin : slot;
  stdout : slot;
  stderr : slot;
  preexec_fn : option hook;
  close_fds : bool;
  shell : bool;
  cwd : option string;
  env : option (gmap string string);
  universal_newlines : bool;
  startupinfo : bool;
  creationflags : Z
}.

(** The reply [(retcode, stdout, stderr)]. *)
Record job_result := JobResult {
  retcode : Z;
  out_bytes : option bytes;
  err_bytes : option bytes
}.

(** ** The environment block of [exec_python] *)

(** [for key in list(os.environ): if key not in env: del os.environ[key]] *)
Definition drop_missing (env environ : gmap string string)
  : gmap string string :=
  foldl (fun m key => if decide (is_Some (env !! key)) then m else delete key m)
        environ (map fst (map_to_list environ)).

(** [os.environ.update(env)]: the entries of [env] win. *)
Definition environ_update (env environ : gmap string string)
  : gmap string string := env ∪ environ.

(** [if env is not None: ...] *)
Definition replace_environ (env : option (gmap string string))
           (environ : gmap string string) : gmap string string :=
  match env with
  | None => environ
  | Some e => environ_update e (drop_missing e environ)
  end.

(** ** Descriptor transfer *)

(** [dict((idx, recvfd(...)) for idx in range(num_fds))]: [idx] counts
    from [start]; every [recvfd] takes the next descriptor in flight.
    [None] when the queue runs dry (the receiver then waits for ever). *)
Fixpoint recv_fds (start : Z) (num_fds : nat) (inflight : list Z)
  : option (gmap Z Z) :=
  match num_fds with
  | O => Some ∅
  | S n =>
      match inflight with
      | [] => None
      | fd :: rest =>
          m ← recv_fds (start + 1) n rest;
          Some (<[start := fd]> m)
      end
  end.

(** [_fd_map.get(s, s)] *)
Definition fd_map_get (fd_map : gmap Z Z) (s : slot) : slot :=
  match s with
  | SNone => SNone
  | SInt z => match fd_map !! z with
              | Some fd => SInt fd
              | None => SInt z
              end
  end.

(** ** Capturing output *)

Definition is_CR (c : Ascii.ascii) : bool := bool_decide (c = Ascii.ascii_of_nat 13).
Definition is_LF (c : Ascii.ascii) : bool := bool_decide (c = Ascii.ascii_of_nat 10).

(** [data.replace("\r\n", "\n").replace("\r", "\n")], what Python 2's
    [communicate] does to captured data under [universal_newlines]. *)
Fixpoint translate_newlines (s : string) : string :=
  match s with
  | EmptyString => EmptyString
  | String c rest =>
      if is_CR c then
        match rest with
        | String c2 rest2 =>
            if is_LF c2 then String c2 (translate_newlines rest2)
            else String (Ascii.ascii_of_nat 10) (translate_newlines rest)
        | EmptyString => nl
        end
      else String c (translate_newlines rest)
  end.

(** Which writes of the child end in the pipe that [communicate] reads
    as stdout: descriptor 1 when [stdout] is [PIPE], and descriptor 2 as
    well when [stderr] is [STDOUT]. *)
Definition to_out_pipe (rq : request) (s : stream) : bool :=
  bool_decide (stdout rq = SInt PIPE) &&
  match s with
  | Stdout => true
  | Stderr => bool_decide (stderr rq = SInt STDOUT)
  end.

(** Which writes end in the pipe read as stderr. *)
Definition to_err_pipe (rq : request) (s : stream) : bool :=
  bool_decide (stderr rq = SInt PIPE) &&
  match s with
  | Stdout => false
  | Stderr => true
  end.

(** [proc.communicate()]: a stream is returned only if its slot is
    [PIPE]. *)
Definition communicate (rq : request) (evs : list wevent)
  : option bytes * option bytes :=
  let tr := if universal_newlines rq then translate_newlines else id in
  ((if bool_decide (stdout rq = SInt PIPE)
    then Some (tr (captured_text (to_out_pipe rq) evs)) else None),
   (if bool_decide (stderr rq = SInt PIPE)
    then Some (tr (captured_text (to_err_pipe rq) evs)) else None)).

(** ** The worker's world *)

(** What the script is given: [sys.argv], the path run by [execfile],
    the directory [Popen] changed to ([None]: the worker's own) and
    [os.environ]. *)
Record exec_ctx := ExecCtx {
  argv : list string;
  exe : string;
  ctx_cwd : option string;
  ctx_environ : gmap string string
}.

Inductive action :=
| ActFork
| ActBody (ctx : exec_ctx)
| ActSend (jr : job_result)
| ActCnxClose
| ActListenerClose.

(** The worker process: in its [recv] loop, left the loop on
    end-of-stream, died of an uncaught exception, or waiting for a
    descriptor that never comes. *)
Inductive worker_state :=
| Listening
| Exited
| Crashed (e : exn)
| Stuck.

Record World := MkWorld {
  worker : worker_state;
  environ : gmap string string;
  trace : list action
}.

Definition log (a : action) (w : World) : World :=
  MkWorld (worker w) (environ w) (trace w ++ [a]).

Definition set_worker (s : worker_state) (w : World) : World :=
  MkWorld s (environ w) (trace w).

Section Lola.

(** The script behind [execfile(executable, p_globals)]: the job body. *)
Variable script : exec_ctx -> body_result.

(** The file system as [os.chdir] sees it. *)
Variable dir_exists : string -> bool.

(** How many bytes a pipe holds before a write to it blocks. *)
Variable pipe_capacity : nat.

(** ** [_PyPopen] *)

(** [[args]] if [args] is a string, else [list(args)]. *)
Definition arg_list (a : pyargs) : list string :=
  match a with
  | ArgStr s => [s]
  | ArgList l => l
  end.

(** [executable], or [args[0]] when it is [None]; nothing when [args]
    is empty ([IndexError]). *)
Definition pick_executable (rq : request) : option string :=
  match executable rq with
  | None => head (arg_list (args rq))
  | Some e => Some e
  end.

(** [if preexec_fn: preexec_fn()] *)
Definition run_hook (rq : request) (environ0 : gmap string string)
  : result (gmap string string) :=
  match preexec_fn rq with
  | Some f => f environ0
  | None => Return environ0
  end.

(** [exec_python], the hook [_PyPopen] hands to [Popen] as [preexec_fn];
    [environ0] is [os.environ] of the forked child.  It ends in
    [os._exit] unless a statement before the [try] raises. *)
Definition exec_python (rq : request) (environ0 : gmap string string)
  : result (exec_ctx * child_exit) :=
  match pick_executable rq with
  | None => Raise IndexError
  | Some executable1 =>
      match run_hook rq environ0 with
      | Raise e => Raise e
      | Blocks => Blocks
      | Return environ1 =>
          let ctx := ExecCtx (arg_list (args rq)) executable1 (cwd rq)
                             (replace_environ (env rq) environ1) in
          Return (ctx, exit_translation (script ctx))
      end
  end.

(** A descriptor [dup2] accepts as its source. *)
Definition dup_ok (s : slot) : bool :=
  match s with
  | SNone => true
  | SInt z => bool_decide (z = PIPE) || bool_decide (0 <= z)
  end.

(** Whether what the child writes into each pipe fits the pipe.  The
    script runs inside [Popen.__init__], which reads nothing from the
    pipes: [communicate()] comes after it. *)
Definition fits_pipes (rq : request) (evs : list wevent) : bool :=
  Nat.leb (String.length (captured_text (to_out_pipe rq) evs)) pipe_capacity &&
  Nat.leb (String.length (captured_text (to_err_pipe rq) evs)) pipe_capacity.

(** [subprocess.Popen.__init__] of Python 2.7 on POSIX with
    [exec_python] as its hook, followed by [communicate()] and [poll()].
    The parent checks its arguments and forks, and waits in [__init__]
    until the child has exited; the child wires its descriptors, changes
    directory and runs the hook, which runs the script.  A child that
    writes more into a pipe than the pipe holds waits for a reader for
    ever, and its parent with it.  An exception in the child, that of
    [os._exit] given an argument that is no C [int] included, is raised
    again in the parent. *)
Definition Popen_run (rq : request) (w : World) : World * result job_result :=
  if startupinfo rq then
    (w, Raise (ValueError "startupinfo is only supported on Windows platforms"))
  else if negb (bool_decide (creationflags rq = 0)) then
    (w, Raise (ValueError "creationflags is only supported on Windows platforms"))
  else if bool_decide (pick_executable rq = None) then
    (w, Raise IndexError)
  else
    let w1 := log ActFork w in
    if negb (dup_ok (stdin rq) && dup_ok (stdout rq) &&
             (dup_ok (stderr rq) || bool_decide (stderr rq = SInt STDOUT))) then
      (w1, Raise OSError)
    else if negb (from_option dir_exists true (cwd rq)) then
      (w1, Raise OSError)
    else
      match exec_python rq (environ w) with
      | Raise e => (w1, Raise e)
      | Blocks => (w1, Blocks)
      | Return (ctx, ce) =>
          let w2 := log (ActBody ctx) w1 in
          if negb (fits_pipes rq (output ce)) then (w2, Blocks)
          else if negb (fits_c_int (exit_arg ce)) then (w2, Raise OverflowError)
          else
            let '(out, err) := communicate rq (output ce) in
            (w2, Return (JobResult (wait_status (exit_arg ce)) out err))
      end.

(** [_PyPopen] built from the request and the descriptor map, then
    [communicate] and [poll]. *)
Definition _PyPopen (rq : request) (_fd_map : option (gmap Z Z)) (w : World)
  : World * result job_result :=
  if shell rq then (w, Raise (ValueError EmptyString))
  else
    let rq1 :=
      match _fd_map with
      | Some m =>
          Request (args rq) (bufsize rq) (executable rq)
                  (fd_map_get m (stdin rq)) (fd_map_get m (stdout rq))
                  (fd_map_get m (stderr rq))
                  (preexec_fn rq) (close_fds rq) (shell rq) (cwd rq) (env rq)
                  (universal_newlines rq) (startupinfo rq) (creationflags rq)
      | None => rq
      end in
    Popen_run rq1 w.

(** ** The worker loop *)

(** What [cnx.recv()] gives the worker: end-of-stream, or a request
    with its descriptor count and the descriptors in flight behind it. *)
Inductive recv_event :=
| RecvEOF
| RecvMsg (rq : request) (num_fds : nat) (inflight : list Z).

(** One pass through the body of [while True] in [listen], run by a
    worker that is [Listening]; the reply it sends, if it sends one. *)
Definition listen_iter (ev : recv_event) (w : World)
  : World * option job_result :=
  match ev with
  | RecvEOF => (set_worker Exited w, None)
  | RecvMsg rq num_fds inflight =>
      match recv_fds 0 num_fds inflight with
      | None => (set_worker Stuck w, None)
      | Some fds =>
          match _PyPopen rq (Some fds) w with
          | (w1, Return jr) => (log (ActSend jr) w1, Some jr)
          | (w1, Raise e) => (set_worker (Crashed e) w1, None)
          | (w1, Blocks) => (set_worker Stuck w1, None)
          end
      end
  end.

(** [listen]: the loop over what arrives, as long as the worker is in
    its loop; the replies sent, in order. *)
Fixpoint listen (evs : list recv_event) (w : World)
  : World * list job_result :=
  match evs with
  | [] => (w, [])
  | ev :: rest =>
      match worker w with
      | Listening =>
          let '(w1, r) := listen_iter ev w in
          let '(w2, rs) := listen rest w1 in
          (w2, option_list r ++ rs)
      | _ => (w, [])
      end
  end.

(** ** [Runner] *)

Inductive Connection := TheConnection.
Inductive Listener := TheListener.

Record Runner := MkRunner {
  _cnx : option Connection;
  _listener : option Listener
}.

(** [_expect_connected] *)
Definition _expect_connected (r : Runner) : result unit :=
  match _cnx r with
  | None => Raise (ValueError "Runner is closed")
  | Some _ => Return tt
  end.

(** Whether the two [close()] calls of the library raise. *)
Record close_faults := CloseFaults {
  cnx_close_fault : option exn;
  listener_close_fault : option exn
}.

Definition no_faults : close_faults := CloseFaults None None.

(** [Runner.close].  When the connection closes, a worker in its loop
    reads end-of-stream.  Of two exceptions the later one propagates. *)
Definition close (cf : close_faults) (r : Runner) (w : World)
  : Runner * World * result unit :=
  match _expect_connected r with
  | Raise e => (r, w, Raise e)
  | Blocks => (r, w, Blocks)
  | Return _ =>
      let w1 := log ActCnxClose w in
      let w2 := match cnx_close_fault cf, worker w1 with
                | None, Listening => (listen [RecvEOF] w1).1
                | _, _ => w1
                end in
      let w3 := log ActListenerClose w2 in
      (MkRunner None None, w3,
       match listener_close_fault cf, cnx_close_fault cf with
       | Some e2, _ => Raise e2
       | None, Some e1 => Raise e1
       | None, None => Return tt
       end)
  end.

(** The arguments of a call, after Python has bound them to the
    parameters of [_call]; [k_stdout] is [None] when the caller gave no
    [stdout]. *)
Record kwargs := Kwargs {
  k_args : pyargs;
  k_bufsize : Z;
  k_executable : option string;
  k_stdin : fp;
  k_stdout : option fp;
  k_stderr : fp;
  k_preexec_fn : option hook;
  k_close_fds : bool;
  k_shell : bool;
  k_cwd : option string;
  k_env : option (gmap string string);
  k_universal_newlines : bool;
  k_startupinfo : bool;
  k_creationflags : Z
}.

(** The request [_call] sends, with the descriptors it sends after it. *)
Definition build_request (kw : kwargs) (stdout0 : fp) : request * list Z :=
  let '(stdin1, fds1) := mkfd [] (k_stdin kw) in
  let '(stdout1, fds2) := mkfd fds1 stdout0 in
  let '(stderr1, fds3) := mkfd fds2 (k_stderr kw) in
  (Request (k_args kw) (k_bufsize kw) (k_executable kw)
           stdin1 stdout1 stderr1
           (k_preexec_fn kw) (k_close_fds kw) (k_shell kw) (k_cwd kw)
           (k_env kw) (k_universal_newlines kw) (k_startupinfo kw)
           (k_creationflags kw),
   fds3).

(** [Runner._call] with [stdout] bound to [stdout0]: the check, the
    request and its descriptors, the worker's turn, and [recv]. *)
Definition _call (r : Runner) (w : World) (kw : kwargs) (stdout0 : fp)
  : World * result job_result :=
  match _expect_connected r with
  | Raise e => (w, Raise e)
  | Blocks => (w, Blocks)
  | Return _ =>
      let '(rq, fds) := build_request kw stdout0 in
      match worker w with
      | Listening =>
          match listen [RecvMsg rq (length fds) fds] w with
          | (w1, jr :: _) => (w1, Return jr)
          | (w1, []) =>
              match worker w1 with
              | Stuck => (w1, Blocks)
              | _ => (w1, Raise EOFError)
              end
          end
      | Stuck => (w, Blocks)
      | _ => (w, Raise IOError)
      end
  end.

(** [Runner.call] *)
Definition call (r : Runner) (w : World) (kw : kwargs) : World * result Z :=
  match _call r w kw (default FpNone (k_stdout kw)) with
  | (w1, Return jr) => (w1, Return (retcode jr))
  | (w1, Raise e) => (w1, Raise e)
  | (w1, Blocks) => (w1, Blocks)
  end.

(** Python's truth value of an integer. *)
Definition truthy (n : Z) : bool := negb (n =? 0).

(** [Runner.check_call] *)
Definition check_call (r : Runner) (w : World) (kw : kwargs)
  : World * result Z :=
  match call r w kw with
  | (w1, Return retcode1) =>
      if truthy retcode1
      then (w1, Raise (CalledProcessError retcode1 (k_args kw) None))
      else (w1, Return retcode1)
  | other => other
  end.

(** [Runner.check_output].  A [stdout] from the caller collides with
    the one the method passes itself. *)
Definition check_output (r : Runner) (w : World) (kw : kwargs)
  : World * result (option bytes) :=
  match k_stdout kw with
  | Some _ =>
      (w, Raise (TypeError "_call() got multiple values for keyword argument 'stdout'"))
  | None =>
      match _call r w kw FpPIPE with
      | (w1, Return jr) =>
          if truthy (retcode jr)
          then (w1, Raise (CalledProcessError (retcode jr) (k_args kw)
                                              (out_bytes jr)))
          else (w1, Return (out_bytes jr))
      | (w1, Raise e) => (w1, Raise e)
      | (w1, Blocks) => (w1, Blocks)
      end
  end.

(** ** The handle as a state machine *)

Inductive op :=
| OpClose (cf : close_faults)
| OpCall (kw : kwargs)
| OpCheckCall (kw : kwargs)
| OpCheckOutput (kw : kwargs).

(** What an operation raised, if it raised. *)
Definition raised {A} (r : result A) : option exn :=
  match r with
  | Raise e => Some e
  | _ => None
  end.

(** One operation on the handle: the handle and the world after it,
    and the exception it raised.  Only [close] assigns the attributes
    of the handle. *)
Definition step (o : op) (r : Runner) (w : World)
  : Runner * World * option exn :=
  match o with
  | OpClose cf => let '(r1, w1, res) := close cf r w in (r1, w1, raised res)
  | OpCall kw => let '(w1, res) := call r w kw in (r, w1, raised res)
  | OpCheckCall kw => let '(w1, res) := check_call r w kw in (r, w1, raised res)
  | OpCheckOutput kw =>
      let '(w1, res) := check_output r w kw in (r, w1, raised res)
  end.

Definition is_open (r : Runner) : Prop := is_Some (_cnx r).
Definition is_closed (r : Runner) : Prop := _cnx r = None.

Definition closed_error : exn := ValueError "Runner is closed".

(** An operation Python can bind to its method: [check_output] takes
    no [stdout] from the caller. *)
Definition well_formed (o : op) : Prop :=
  match o with
  | OpCheckOutput kw => k_stdout kw = None
  | _ => True
  end.

(** What the worker makes of the request [_call] builds from [kw]. *)
Definition job_outcome (kw : kwargs) (stdout0 : fp) (w : World)
  : World * result job_result :=
  let '(rq, fds) := build_request kw stdout0 in
  _PyPopen rq (recv_fds 0 (length fds) fds) w.

(** ** The descriptor hand-over, as the specification words it *)

(** The descriptor behind a stdio argument that is not a sentinel. *)
Definition descriptor_of (x : fp) : option Z :=
  match x with
  | FpInt fd => Some (Z.of_N fd)
  | FpFile fileno => Some (Z.of_N fileno)
  | _ => None
  end.


(** What a slot is to hold once the worker has resolved it: the
    caller's descriptor, or the sentinel as it was. *)
Definition supplied (x : fp) : slot :=
  match x with
  | FpNone => SNone
  | FpSTDOUT => SInt STDOUT
  | FpPIPE => SInt PIPE
  | FpInt fd => SInt (Z.of_N fd)
  | FpFile fileno => SInt (Z.of_N fileno)
  end.

(** The request as [_PyPopen] hands it to [Popen] when every slot
    holds what the caller supplied. *)
Definition resolved_request (kw : kwargs) (stdout0 : fp) : request :=
  Request (k_args kw) (k_bufsize kw) (k_executable kw)
          (supplied (k_stdin kw)) (supplied stdout0) (supplied (k_stderr kw))
          (k_preexec_fn kw) (k_close_fds kw) (k_shell kw) (k_cwd kw)
          (k_env kw) (k_universal_newlines kw) (k_startupinfo kw)
          (k_creationflags kw).






(** ** The handle in a [with] block *)

(** The outcome of a call without its value. *)
Definition forget {A} (r : result A) : result unit :=
  match r with
  | Return _ => Return tt
  | Raise e => Raise e
  | Blocks => Blocks
  end.

(** One operation on the handle, with its outcome. *)
Definition perform (o : op) (r : Runner) (w : World)
  : Runner * World * result unit :=
  match o with
  | OpClose cf => close cf r w
  | OpCall kw => let '(w1, res) := call r w kw in (r, w1, forget res)
  | OpCheckCall kw => let '(w1, res) := check_call r w kw in (r, w1, forget res)
  | OpCheckOutput kw =>
      let '(w1, res) := check_output r w kw in (r, w1, forget res)
  end.

(** Operations one after the other, up to the first that does not
    return. *)
Fixpoint run_ops (body : list op) (r : Runner) (w : World)
  : Runner * World * result unit :=
  match body with
  | [] => (r, w, Return tt)
  | o :: rest =>
      match perform o r w with
      | (r1, w1, Return _) => run_ops rest r1 w1
      | other => other
      end
  end.

(** [Runner.__enter__] *)
Definition __enter__ (r : Runner) : Runner := r.

(** [Runner.__exit__]: it calls [close] and returns [None], so an
    exception of the block is not swallowed. *)
Definition __exit__ (cf : close_faults) (r : Runner) (w : World)
  : Runner * World * result unit := close cf r w.

(** [with runner: body], where the body is a sequence of operations on
    the handle followed, if [fault] is given, by an exception of the
    caller's own.  [__exit__] runs when the body ends in any way; what it
    raises replaces what the body raised. *)
Definition with_block (cf : close_faults) (body : list op)
           (fault : option exn) (r : Runner) (w : World)
  : Runner * World * result unit :=
  let '(r1, w1, res) := run_ops body (__enter__ r) w in
  let res1 := match res, fault with
              | Return _, Some e => Raise e
              | _, _ => res
              end in
  match res1 with
  | Blocks => (r1, w1, Blocks)
  | _ =>
      let '(r2, w2, cres) := __exit__ cf r1 w1 in
      (r2, w2, match cres with
               | Return _ => res1
               | _ => cres
               end)
  end.

(** No operation of the body is a [close]. *)
Definition no_close (body : list op) : Prop :=
  Forall (fun o => forall cf, o <> OpClose cf) body.

(** The slot holds a sentinel or an index into [n] descriptors. *)
Definition slot_in_range (n : nat) (s : slot) : Prop :=
  match s with
  | SNone => True
  | SInt z => z = PIPE \/ z = STDOUT \/ 0 <= z < Z.of_nat n
  end.

(** ** Sample scripts and requests *)

(** The scripts of the test suite, by what the tests expect of them,
    and two more; any other path does not exist. *)
Definition sample_script (ctx : exec_ctx) : body_result :=
  if decide (exe ctx = "test_scripts/success.py") then
    BodyResult [] EmptyString Completed
  else if decide (exe ctx = "test_scripts/fail.py") then
    BodyResult [] "failing" (SystemExit (PyInt 1))
  else if decide (exe ctx = "test_scripts/exception.py") then
    BodyResult [] EmptyString (Fault "Traceback (most recent call last): Exception")
  else if decide (exe ctx = "test_scripts/output.py") then
    BodyResult [(Stdout, "outputting" +:+ nl); (Stderr, "erroring" +:+ nl)]
               EmptyString Completed
  else if decide (exe ctx = "reason.py") then
    BodyResult [] EmptyString (SystemExit (PyOther "bad input"))
  else
    BodyResult [] EmptyString (Fault "IOError: No such file or directory").

Definition sample_dirs (d : string) : bool := bool_decide (d = "/tmp").

Definition sample_kw (argv0 : list string) : kwargs :=
  Kwargs (ArgList argv0) 0 None FpNone None FpNone None false false
         None None false false 0.

Definition sample_shell_kw : kwargs :=
  Kwargs (ArgList ["test_scripts/success.py"]) 0 None FpNone None FpNone None
         false true None None false false 0.

Definition sample_world : World :=
  MkWorld Listening {["HOME" := "/root"; "LOLA_ENV_TEST_PARENT" := "set in parent"]} [].

Definition sample_runner : Runner :=
  MkRunner (Some TheConnection) (Some TheListener).

(** [check_output(['test_scripts/output.py'], stderr=subprocess.STDOUT)] *)
Definition sample_merge_kw : kwargs :=
  Kwargs (ArgList ["test_scripts/output.py"]) 0 None FpNone None FpSTDOUT None
         false false None None false false 0.

(** A request with an explicit [env] that lacks the parent's key. *)
Definition sample_env_rq : request :=
  Request (ArgList ["test_scripts/success.py"]) 0 None SNone SNone SNone None
          false false None (Some {["LOLA_ENV_TEST" := "test value"]})
          false false 0.

(** The connection fails to close, the listener closes. *)
Definition sample_faults : close_faults := CloseFaults (Some IOError) None.

(** The capacity of a pipe on Linux: 65536 bytes. *)
Definition sample_pipe : nat := (2 ^ 16)%nat.











(** A request whose one argument is a string, with another file to run. *)
Definition sample_str_rq : request :=
  Request (ArgStr "job") 0 (Some "test_scripts/success.py") SNone SNone SNone
          None false false None None false false 0.

(** ** Exit-code translation *)

Lemma string_app_cons (x : Ascii.ascii) (a b : string) :
  String x a +:+ b = String x (a +:+ b).
Proof. reflexivity. Qed.

Lemma string_app_assoc (a b c : string) : (a +:+ b) +:+ c = a +:+ (b +:+ c).
Proof.
  induction a as [|x a IH]; [done|].
  rewrite !string_app_cons. by rewrite IH.
Qed.

Lemma string_app_nil_r (a : string) : a +:+ EmptyString = a.
Proof.
  induction a as [|x a IH]; [done|].
  rewrite string_app_cons. by rewrite IH.
Qed.

Lemma captured_text_app (p : stream -> bool) (l1 l2 : list wevent) :
  captured_text p (l1 ++ l2) = captured_text p l1 +:+ captured_text p l2.
Proof.
  induction l1 as [|ev l1 IH]; simpl; [done|].
  destruct (p ev.1); [|exact IH].
  rewrite IH. symmetry. apply string_app_assoc.
Qed.

Lemma stderr_after_flush (r : body_result) :
  stream_text Stderr (flush_stdout r) = stream_text Stderr (writes r).
Proof.
  unfold stream_text, flush_stdout. rewrite captured_text_app. simpl.
  apply string_app_nil_r.
Qed.

Lemma stderr_after_message (r : body_result) (msg : bytes) :
  stream_text Stderr (flush_stdout r ++ [(Stderr, msg)])
  = stream_text Stderr (writes r) +:+ msg.
Proof.
  unfold stream_text. rewrite captured_text_app.
  fold (stream_text Stderr (flush_stdout r)). rewrite stderr_after_flush.
  simpl. by rewrite string_app_nil_r.
Qed.

Lemma wait_status_in_range (n : Z) : 0 <= n <= 255 -> wait_status n = n.
Proof. intros H. unfold wait_status. apply Z.mod_small. lia. Qed.

(** C1.  The [try]/[except]/[else] block of [exec_python]: an integer
    exit code reaches [os._exit] unchanged with nothing added to stderr
    (and is the status the parent reads when it lies in 0..255); a code
    that is neither an integer nor [None] is printed on stderr, followed
    by a newline, and the exit code is 1; a fault prints its traceback
    on stderr and the exit code is 255; normal completion and a [None]
    code give 0. *)
Theorem exit_code_translation (r : body_result) :
  (forall code n, ending r = SystemExit code -> isinstance_int code = Some n ->
     exit_arg (exit_translation r) = n /\
     stream_text Stderr (output (exit_translation r))
       = stream_text Stderr (writes r) /\
     (0 <= n <= 255 -> wait_status (exit_arg (exit_translation r)) = n)) /\
  (forall reason, ending r = SystemExit (PyOther reason) ->
     exit_arg (exit_translation r) = 1 /\
     stream_text Stderr (output (exit_translation r))
       = stream_text Stderr (writes r) +:+ (reason +:+ nl)) /\
  (forall tb, ending r = Fault tb ->
     exit_arg (exit_translation r) = 255 /\
     stream_text Stderr (output (exit_translation r))
       = stream_text Stderr (writes r) +:+ tb) /\
  (ending r = Completed \/ ending r = SystemExit PyNone ->
     exit_arg (exit_translation r) = 0 /\
     stream_text Stderr (output (exit_translation r))
       = stream_text Stderr (writes r)).
Proof.
  unfold exit_translation. repeat split.
  - rewrite H, H0. done.
  - rewrite H, H0. simpl. apply stderr_after_flush.
  - rewrite H, H0. simpl. apply wait_status_in_range.
  - by rewrite H.
  - rewrite H. simpl. apply stderr_after_message.
  - by rewrite H.
  - rewrite H. simpl. apply stderr_after_message.
  - destruct H as [-> | ->]; done.
  - destruct H as [-> | ->]; simpl; apply stderr_after_flush.
Qed.

(** ** The environment of the job *)

Lemma drop_keys_lookup (env m : gmap string string) (ks : list string)
      (k : string) :
  foldl (fun m key => if decide (is_Some (env !! key)) then m else delete key m)
        m ks !! k
  = if decide (k ∈ ks /\ env !! k = None) then None else m !! k.
Proof.
  revert m. induction ks as [|a ks IH]; intros m; simpl.
  - done.
  - rewrite IH.
    destruct (decide (k ∈ ks /\ env !! k = None)) as [[Hin Hk]|Hn].
    + rewrite decide_True; [done|]. split; [by right | done].
    + destruct (decide (k = a)) as [->|Hne].
      * destruct (decide (is_Some (env !! a))) as [[v Hv]|Hnone].
        -- rewrite decide_False; [done|]. intros [_ Hk]. congruence.
        -- rewrite lookup_delete_eq. rewrite decide_True; [done|].
           split; [by left|]. by apply eq_None_not_Some.
      * assert (Hm : (if decide (is_Some (env !! a)) then m else delete a m) !! k
                     = m !! k).
        { destruct (decide _); [done | by rewrite lookup_delete_ne]. }
        rewrite Hm. rewrite decide_False; [done|].
        intros [Hin Hk]. apply Hn. split; [|done].
        apply elem_of_cons in Hin as [?|?]; [congruence | done].
Qed.

Lemma drop_missing_lookup (env environ : gmap string string) (k : string) :
  drop_missing env environ !! k
  = if decide (is_Some (env !! k)) then environ !! k else None.
Proof.
  unfold drop_missing. rewrite drop_keys_lookup.
  destruct (decide (is_Some (env !! k))) as [[v Hv]|Hnone].
  - rewrite decide_False; [done|]. intros [_ Hk]. congruence.
  - destruct (decide _) as [_|Hn]; [done|].
    destruct (environ !! k) as [v|] eqn:Hv; [|done].
    exfalso. apply Hn. split; [|by apply eq_None_not_Some].
    apply list_elem_of_fmap. exists (k, v). split; [done|].
    by apply elem_of_map_to_list.
Qed.

Lemma replace_environ_explicit (e environ : gmap string string) :
  replace_environ (Some e) environ = e.
Proof.
  unfold replace_environ, environ_update. apply map_eq. intros k.
  destruct (e !! k) as [v|] eqn:Hk.
  - by apply lookup_union_Some_l.
  - apply lookup_union_None. split; [done|].
    rewrite drop_missing_lookup, Hk.
    rewrite decide_False; [done|]. by intros [? ?].
Qed.

(** C7.  When [exec_python] gets as far as the script (an executable
    is named and the pre-exec hook returns), the script runs with this
    environment: without [env] and without a hook, the worker's own,
    unchanged; with [env], exactly that mapping, so a key outside it is
    not set whatever the worker had. *)
Theorem environment_handling (rq : request)
        (environ0 environ1 : gmap string string) :
  is_Some (pick_executable rq) ->
  run_hook rq environ0 = Return environ1 ->
  exists ctx,
    exec_python rq environ0 = Return (ctx, exit_translation (script ctx)) /\
    (env rq = None -> ctx_environ ctx = environ1) /\
    (preexec_fn rq = None -> environ1 = environ0) /\
    (forall e, env rq = Some e ->
       ctx_environ ctx = e /\
       forall k, e !! k = None -> ctx_environ ctx !! k = None).
Proof.
  intros [x Hx] Hh. unfold exec_python. rewrite Hx, Hh.
  eexists. split; [reflexivity|]. simpl. repeat split.
  - intros ->. done.
  - intros Hp. unfold run_hook in Hh. rewrite Hp in Hh. congruence.
  - rewrite H. apply replace_environ_explicit.
  - intros k Hk. rewrite H, replace_environ_explicit. done.
Qed.

(** ** Descriptor transfer *)

Lemma recv_fds_lookup (n : nat) :
  forall (start : Z) (q : list Z), (n <= length q)%nat ->
  exists m, recv_fds start n q = Some m /\
    forall z, m !! z = if decide (start <= z < start + Z.of_nat n)
                       then q !! Z.to_nat (z - start) else None.
Proof.
  induction n as [|n IH]; intros start q Hlen.
  - exists ∅. split; [done|]. intros z.
    rewrite lookup_empty, decide_False; [done | lia].
  - destruct q as [|fd rest]; [simpl in Hlen; lia|].
    destruct (IH (start + 1) rest) as (m & Hm & Hlk); [simpl in Hlen; lia|].
    exists (<[start := fd]> m). split; [simpl; by rewrite Hm|].
    intros z. destruct (decide (z = start)) as [->|Hne].
    + rewrite lookup_insert_eq, decide_True by lia.
      by replace (start - start) with 0 by lia.
    + rewrite lookup_insert_ne by done. rewrite Hlk.
      destruct (decide (start + 1 <= z < start + 1 + Z.of_nat n)) as [Hr|Hr].
      * rewrite decide_True by lia.
        replace (Z.to_nat (z - start)) with (S (Z.to_nat (z - (start + 1))))
          by lia.
        done.
      * rewrite decide_False by lia. done.
Qed.

Lemma mkfd_snd (fds : list Z) (x : fp) :
  (mkfd fds x).2 = fds ++ option_list (descriptor_of x).
Proof. destruct x; simpl; by rewrite ?app_nil_r. Qed.

Lemma mkfd_resolves (fds ext : list Z) (x : fp) (m : gmap Z Z) :
  (forall z, m !! z
     = if decide (0 <= z < 0 + Z.of_nat (length ((mkfd fds x).2 ++ ext)))
       then ((mkfd fds x).2 ++ ext) !! Z.to_nat (z - 0) else None) ->
  fd_map_get m (mkfd fds x).1 = supplied x.
Proof.
  intros Hlk.
  assert (Hneg : forall z, z < 0 -> m !! z = None).
  { intros z Hz. rewrite Hlk, decide_False; [done | lia]. }
  assert (Hidx : forall d, (mkfd fds x).2 = fds ++ [d] ->
            m !! (Z.of_nat (length (fds ++ [d])) - 1) = Some d).
  { intros d Hd. rewrite Hlk, Hd.
    rewrite decide_True by (rewrite !length_app; simpl; lia).
    replace (Z.to_nat (Z.of_nat (length (fds ++ [d])) - 1 - 0))
      with (length fds) by (rewrite length_app; simpl; lia).
    rewrite <- app_assoc. simpl. by apply list_lookup_middle. }
  destruct x; simpl.
  - done.
  - rewrite Hneg; [done | unfold STDOUT; lia].
  - rewrite Hneg; [done | unfold PIPE; lia].
  - rewrite Hidx; done.
  - rewrite Hidx; done.
Qed.

Lemma build_request_eq (kw : kwargs) (stdout0 : fp) :
  let m1 := mkfd [] (k_stdin kw) in
  let m2 := mkfd m1.2 stdout0 in
  let m3 := mkfd m2.2 (k_stderr kw) in
  build_request kw stdout0 =
  (Request (k_args kw) (k_bufsize kw) (k_executable kw) m1.1 m2.1 m3.1
           (k_preexec_fn kw) (k_close_fds kw) (k_shell kw) (k_cwd kw)
           (k_env kw) (k_universal_newlines kw) (k_startupinfo kw)
           (k_creationflags kw),
   m3.2).
Proof.
  unfold build_request.
  destruct (mkfd [] (k_stdin kw)) as [s1 f1]; simpl.
  destruct (mkfd f1 stdout0) as [s2 f2]; simpl.
  destruct (mkfd f2 (k_stderr kw)) as [s3 f3]; done.
Qed.

(** The map the worker builds from the descriptors [_call] sends
    resolves every slot of the request to what the caller supplied. *)
Lemma resolve_slots (kw : kwargs) (stdout0 : fp) :
  let rq := (build_request kw stdout0).1 in
  let fds := (build_request kw stdout0).2 in
  exists m, recv_fds 0 (length fds) fds = Some m /\
    (forall z, m !! z = if decide (0 <= z < 0 + Z.of_nat (length fds))
                        then fds !! Z.to_nat (z - 0) else None) /\
    fd_map_get m (stdin rq) = supplied (k_stdin kw) /\
    fd_map_get m (stdout rq) = supplied stdout0 /\
    fd_map_get m (stderr rq) = supplied (k_stderr kw).
Proof.
  rewrite build_request_eq. cbn [fst snd stdin stdout stderr].
  set (a := k_stdin kw). set (c := k_stderr kw).
  pose proof (mkfd_snd (mkfd [] a).2 stdout0) as H2.
  pose proof (mkfd_snd (mkfd (mkfd [] a).2 stdout0).2 c) as H3.
  destruct (recv_fds_lookup
              (length (mkfd (mkfd (mkfd [] a).2 stdout0).2 c).2) 0
              (mkfd (mkfd (mkfd [] a).2 stdout0).2 c).2) as (m & Hm & Hlk);
    [lia|].
  exists m. split; [done|]. split; [exact Hlk|]. repeat split.
  - apply (mkfd_resolves [] (option_list (descriptor_of stdout0)
                              ++ option_list (descriptor_of c))).
    rewrite app_assoc, <- H2, <- H3. exact Hlk.
  - apply (mkfd_resolves _ (option_list (descriptor_of c))).
    rewrite <- H3. exact Hlk.
  - apply (mkfd_resolves _ []). rewrite app_nil_r. exact Hlk.
Qed.


(** ** One job, from request to reply *)

Lemma exec_python_return (rq : request) (environ0 : gmap string string)
      (ctx : exec_ctx) (ce : child_exit) :
  exec_python rq environ0 = Return (ctx, ce) ->
  ce = exit_translation (script ctx).
Proof.
  unfold exec_python. intros H. repeat case_match; by simplify_eq.
Qed.

Lemma Popen_run_return (rq : request) (w w1 : World) (jr : job_result) :
  Popen_run rq w = (w1, Return jr) ->
  exists ctx,
    exec_python rq (environ w) = Return (ctx, exit_translation (script ctx)) /\
    w1 = log (ActBody ctx) (log ActFork w) /\
    retcode jr = wait_status (exit_arg (exit_translation (script ctx))) /\
    (out_bytes jr, err_bytes jr)
      = communicate rq (output (exit_translation (script ctx))).
Proof.
  unfold Popen_run. intros H.
  repeat (case_match; simplify_eq).
  match goal with
  | He : exec_python _ _ = Return (?c, _) |- _ =>
      pose proof (exec_python_return _ _ _ _ He) as ->; exists c
  end.
  repeat split; try done.
Qed.

Lemma Popen_run_worker (rq : request) (w : World) :
  worker (Popen_run rq w).1 = worker w.
Proof. unfold Popen_run. repeat case_match; done. Qed.

Lemma PyPopen_worker (rq : request) (m : option (gmap Z Z)) (w : World) :
  worker (_PyPopen rq m w).1 = worker w.
Proof.
  unfold _PyPopen. destruct (shell rq); [done|]. apply Popen_run_worker.
Qed.

Lemma recv_fds_all (fds : list Z) :
  exists m, recv_fds 0 (length fds) fds = Some m /\
            forall z, z < 0 -> m !! z = None.
Proof.
  destruct (recv_fds_lookup (length fds) 0 fds) as (m & Hm & Hlk); [lia|].
  exists m. split; [done|]. intros z Hz.
  rewrite Hlk, decide_False; [done | lia].
Qed.

Lemma listen_single (ev : recv_event) (w : World) :
  worker w = Listening ->
  listen [ev] w = ((listen_iter ev w).1, option_list (listen_iter ev w).2).
Proof.
  intros Hw. simpl. rewrite Hw.
  destruct (listen_iter ev w) as [w1 r]. simpl. by rewrite app_nil_r.
Qed.

(** [_call] on an open handle whose worker is in its loop: the reply
    if the worker produced one; end-of-stream if the worker died of an
    exception instead. *)
Lemma _call_open (r : Runner) (w : World) (kw : kwargs) (stdout0 : fp) :
  is_open r -> worker w = Listening ->
  _call r w kw stdout0 =
  match job_outcome kw stdout0 w with
  | (w1, Return jr) => (log (ActSend jr) w1, Return jr)
  | (w1, Raise e) => (set_worker (Crashed e) w1, Raise EOFError)
  | (w1, Blocks) => (set_worker Stuck w1, Blocks)
  end.
Proof.
  intros [c Hc] Hw. unfold _call, _expect_connected, job_outcome.
  rewrite Hc. destruct (build_request kw stdout0) as [rq fds].
  rewrite Hw, listen_single by done. simpl.
  destruct (recv_fds_all fds) as (m & -> & _).
  destruct (_PyPopen rq (Some m) w) as [w1 [jr|e|]]; simpl; done.
Qed.

Lemma _call_closed (r : Runner) (w : World) (kw : kwargs) (stdout0 : fp) :
  is_closed r -> _call r w kw stdout0 = (w, Raise closed_error).
Proof.
  unfold is_closed, _call, _expect_connected. by intros ->.
Qed.

(** The exceptions [_call] can raise. *)
Lemma _call_raises (r : Runner) (w : World) (kw : kwargs) (stdout0 : fp)
      (e : exn) :
  (_call r w kw stdout0).2 = Raise e ->
  e = closed_error \/ e = EOFError \/ e = IOError.
Proof.
  unfold _call, _expect_connected.
  destruct (_cnx r); [|simpl; intros [= <-]; by left].
  destruct (build_request kw stdout0) as [rq fds].
  destruct (worker w) eqn:Hw.
  - destruct (listen _ w) as [w1 [|jr rs]]; [|done].
    destruct (worker w1); simpl; intros [= <-]; auto.
  - simpl; intros [= <-]; auto.
  - simpl; intros [= <-]; auto.
  - done.
Qed.

Lemma job_outcome_eq (kw : kwargs) (stdout0 : fp) (w : World) :
  job_outcome kw stdout0 w =
  if k_shell kw then (w, Raise (ValueError EmptyString))
  else Popen_run (resolved_request kw stdout0) w.
Proof.
  unfold job_outcome.
  destruct (resolve_slots kw stdout0) as (m & Hm & _ & Hi & Ho & He).
  destruct (build_request kw stdout0) as [rq fds] eqn:Hb.
  pose proof (build_request_eq kw stdout0) as Hb'. simpl in Hb'.
  rewrite Hb in Hb'. simpl in Hm, Hi, Ho, He. rewrite Hm.
  unfold _PyPopen, resolved_request. rewrite Hi, Ho, He.
  injection Hb' as -> _. reflexivity.
Qed.

Lemma job_outcome_return (kw : kwargs) (stdout0 : fp) (w w1 : World)
      (jr : job_result) :
  job_outcome kw stdout0 w = (w1, Return jr) ->
  k_shell kw = false /\
  exists ctx,
    w1 = log (ActBody ctx) (log ActFork w) /\
    retcode jr = wait_status (exit_arg (exit_translation (script ctx))) /\
    (out_bytes jr, err_bytes jr)
      = communicate (resolved_request kw stdout0)
                    (output (exit_translation (script ctx))).
Proof.
  rewrite job_outcome_eq.
  destruct (k_shell kw); [done|]. intros H. split; [done|].
  apply Popen_run_return in H as (ctx & _ & -> & Hr & Hc).
  by exists ctx.
Qed.






Lemma job_outcome_worker (kw : kwargs) (stdout0 : fp) (w : World) :
  worker (job_outcome kw stdout0 w).1 = worker w.
Proof.
  unfold job_outcome. destruct (build_request kw stdout0).
  apply PyPopen_worker.
Qed.

(** ** [call], [check_call], [check_output] *)







(** ** Faults in the job body *)


(** ** Requests with [shell] set *)

Lemma PyPopen_shell (rq : request) (m : option (gmap Z Z)) (w : World) :
  shell rq = true -> _PyPopen rq m w = (w, Raise (ValueError EmptyString)).
Proof. unfold _PyPopen. by intros ->. Qed.

Lemma build_request_shell (kw : kwargs) (stdout0 : fp) :
  shell (build_request kw stdout0).1 = k_shell kw.
Proof. by rewrite build_request_eq. Qed.

(** C6, as the code has it.  For a request with [shell] set,
    [_PyPopen] raises [ValueError] with the world as it was: nothing is
    forked and the script is not run.  [listen] does not catch the
    exception: on an open handle whose worker is in its loop, no reply
    is sent, the worker dies of the [ValueError], the caller's [_call]
    raises [EOFError], and every later [_call] on the handle raises
    [IOError]. *)
Theorem shell_request_rejected_in_worker (r : Runner) (w : World)
        (kw : kwargs) (stdout0 : fp) :
  k_shell kw = true ->
  (forall m,
     _PyPopen (build_request kw stdout0).1 m w
     = (w, Raise (ValueError EmptyString))) /\
  (is_open r -> worker w = Listening ->
   let w1 := set_worker (Crashed (ValueError EmptyString)) w in
   _call r w kw stdout0 = (w1, Raise EOFError) /\
   trace w1 = trace w /\
   forall kw2 stdout2, _call r w1 kw2 stdout2 = (w1, Raise IOError)).
Proof.
  intros Hs. split.
  - intros m. apply PyPopen_shell. by rewrite build_request_shell.
  - intros Ho Hw. split; [|split; [done|]].
    + rewrite _call_open by done.
      by rewrite job_outcome_eq, Hs.
    + intros kw2 stdout2. destruct Ho as [c Hc].
      unfold _call, _expect_connected. rewrite Hc.
      destruct (build_request kw2 stdout2). done.
Qed.

(** ** The life of the handle *)

Lemma close_open (cf : close_faults) (r : Runner) (w : World) :
  is_open r ->
  (close cf r w).1.1 = MkRunner None None /\
  trace (close cf r w).1.2 = trace w ++ [ActCnxClose; ActListenerClose] /\
  (close cf r w).2 = match listener_close_fault cf, cnx_close_fault cf with
                     | Some e2, _ => Raise e2
                     | None, Some e1 => Raise e1
                     | None, None => Return tt
                     end.
Proof.
  intros [c Hc]. unfold close, _expect_connected. rewrite Hc. simpl.
  split; [done|]. split; [|done].
  destruct (cnx_close_fault cf); simpl; [by rewrite <- app_assoc|].
  destruct (worker w) eqn:Hw; simpl; rewrite ?Hw; simpl;
    by rewrite <- app_assoc.
Qed.

Lemma step_closed (o : op) (r : Runner) (w : World) :
  is_closed r -> well_formed o -> step o r w = (r, w, Some closed_error).
Proof.
  intros Hc Hwf. destruct o as [cf|kw|kw|kw]; simpl.
  - unfold close, _expect_connected. unfold is_closed in Hc. by rewrite Hc.
  - unfold call. by rewrite _call_closed.
  - unfold check_call, call. by rewrite _call_closed.
  - simpl in Hwf. unfold check_output. rewrite Hwf. by rewrite _call_closed.
Qed.

Lemma step_keeps_handle (o : op) (r : Runner) (w : World) :
  (forall cf, o <> OpClose cf) -> (step o r w).1.1 = r.
Proof.
  intros Hn. destruct o as [cf|kw|kw|kw]; simpl.
  - by destruct (Hn cf).
  - by destruct (call r w kw).
  - by destruct (check_call r w kw).
  - by destruct (check_output r w kw).
Qed.

Lemma step_stays_closed (o : op) (r : Runner) (w : World) :
  is_closed r -> is_closed (step o r w).1.1.
Proof.
  intros Hc. destruct o as [cf|kw|kw|kw].
  - simpl. unfold close, _expect_connected.
    unfold is_closed in Hc. by rewrite Hc.
  - by rewrite step_keeps_handle.
  - by rewrite step_keeps_handle.
  - by rewrite step_keeps_handle.
Qed.

(** C5.  [close()] on an open handle returns normally (the library's
    two closes not failing) and leaves the handle closed; from then on
    [close()] again, [call], [check_call] and [check_output] raise
    [ValueError] and change nothing.  A closed handle stays closed under
    every operation, and no operation other than [close()] changes the
    handle. *)
Theorem close_succeeds_exactly_once (r : Runner) (w : World) :
  (is_open r ->
   (close no_faults r w).2 = Return tt /\
   is_closed (close no_faults r w).1.1 /\
   forall o w', well_formed o ->
     step o (close no_faults r w).1.1 w'
     = ((close no_faults r w).1.1, w', Some closed_error)) /\
  (is_closed r -> forall o w', is_closed (step o r w').1.1) /\
  (forall o w', (forall cf, o <> OpClose cf) -> (step o r w').1.1 = r).
Proof.
  split; [|split].
  - intros Ho. destruct (close_open no_faults r w Ho) as (Hr & _ & Hres).
    split; [done|]. rewrite Hr. split; [done|].
    intros o w' Hwf. by apply step_closed.
  - intros Hc o w'. by apply step_stays_closed.
  - intros o w'. apply step_keeps_handle.
Qed.

(** C10.  [close()] on an open handle, whether or not closing the
    connection or the listener raises: the listener's close is
    attempted after the connection's, both attributes are cleared, the
    exception of the later failing close (if any) propagates, and every
    later operation on the handle raises [ValueError]. *)
Theorem close_always_reaches_closed (cf : close_faults) (r : Runner)
        (w : World) :
  is_open r ->
  _cnx (close cf r w).1.1 = None /\
  _listener (close cf r w).1.1 = None /\
  trace (close cf r w).1.2 = trace w ++ [ActCnxClose; ActListenerClose] /\
  (close cf r w).2 = match listener_close_fault cf, cnx_close_fault cf with
                     | Some e2, _ => Raise e2
                     | None, Some e1 => Raise e1
                     | None, None => Return tt
                     end /\
  forall o w', well_formed o ->
    step o (close cf r w).1.1 w' = ((close cf r w).1.1, w', Some closed_error).
Proof.
  intros Ho. destruct (close_open cf r w Ho) as (Hr & Ht & Hres).
  rewrite Hr. repeat split; try done.
  intros o w' Hwf. by apply step_closed.
Qed.


(** ** Further properties: what the child writes and how it ends *)

Lemma captured_text_none (p : stream -> bool) (evs : list wevent) :
  Forall (fun ev => p ev.1 = false) evs -> captured_text p evs = EmptyString.
Proof.
  induction 1 as [|ev evs Hev _ IH]; simpl; [done|]. by rewrite Hev.
Qed.

(** X1.  Whatever way the script ends, [exec_python] flushes
    [sys.stdout] before it writes anything of its own: the child's
    output is the script's writes, then the flushed buffer, then only
    writes to stderr; so stdout receives exactly what the script wrote
    and buffered, nothing lost and nothing added. *)
Theorem stdout_flushed_before_diagnostic (r : body_result) :
  exists diag,
    output (exit_translation r) = writes r ++ [(Stdout, unflushed r)] ++ diag /\
    Forall (fun ev => ev.1 = Stderr) diag /\
    stream_text Stdout (output (exit_translation r))
    = stream_text Stdout (writes r) +:+ unflushed r.
Proof.
  assert (Hgen : forall diag,
            Forall (fun ev : wevent => ev.1 = Stderr) diag ->
            stream_text Stdout (writes r ++ [(Stdout, unflushed r)] ++ diag)
            = stream_text Stdout (writes r) +:+ unflushed r).
  { intros diag Hd. unfold stream_text. rewrite !captured_text_app.
    rewrite (captured_text_none _ diag).
    - simpl. by rewrite !string_app_nil_r.
    - eapply Forall_impl; [exact Hd|]. intros ev ->. done. }
  unfold exit_translation, flush_stdout.
  destruct (ending r) as [|code|tb].
  - exists []. split; [done|]. split; [constructor|]. by apply Hgen.
  - destruct (isinstance_int code) as [n|].
    + exists []. split; [done|]. split; [constructor|]. by apply Hgen.
    + destruct (is_None code).
      * exists []. split; [done|]. split; [constructor|]. by apply Hgen.
      * exists [(Stderr, py_str code +:+ nl)]. simpl.
        split; [by rewrite <- app_assoc|].
        split; [by repeat constructor|].
        rewrite <- app_assoc. apply Hgen. by repeat constructor.
  - exists [(Stderr, tb)]. simpl.
    split; [by rewrite <- app_assoc|].
    split; [by repeat constructor|].
    rewrite <- app_assoc. apply Hgen. by repeat constructor.
Qed.

(** ** Further properties: replies and the three calls *)

(** A reply [_call] returns was sent by a worker in its loop for this
    request, to an open handle. *)
Lemma _call_return_inv (r : Runner) (w w1 : World) (kw : kwargs)
      (stdout0 : fp) (jr : job_result) :
  _call r w kw stdout0 = (w1, Return jr) ->
  is_open r /\ worker w = Listening /\
  exists w0, job_outcome kw stdout0 w = (w0, Return jr) /\
             w1 = log (ActSend jr) w0.
Proof.
  intros H.
  destruct (_cnx r) as [c|] eqn:Hc.
  2:{ rewrite _call_closed in H by done. discriminate. }
  assert (Ho : is_open r) by (by exists c).
  destruct (worker w) eqn:Hw.
  - rewrite _call_open in H by done.
    destruct (job_outcome kw stdout0 w) as [w0 [jr0|e|]]; simplify_eq.
    split; [done|]. split; [done|]. by exists w0.
  - unfold _call, _expect_connected in H. rewrite Hc, Hw in H.
    destruct (build_request kw stdout0). discriminate.
  - unfold _call, _expect_connected in H. rewrite Hc, Hw in H.
    destruct (build_request kw stdout0). discriminate.
  - unfold _call, _expect_connected in H. rewrite Hc, Hw in H.
    destruct (build_request kw stdout0). discriminate.
Qed.





(** X4.  [check_call] returns nothing but 0: when it returns, [call]
    returned 0 for the same request.  Returning or raising, it leaves
    the world as [call] does. *)
Theorem check_call_returns_only_zero (r : Runner) (w : World) (kw : kwargs) :
  (forall w1 n, check_call r w kw = (w1, Return n) ->
                n = 0 /\ call r w kw = (w1, Return 0)) /\
  (check_call r w kw).1 = (call r w kw).1.
Proof.
  unfold check_call. destruct (call r w kw) as [w0 [n0|e|]]; split; try done.
  - intros w1 n. unfold truthy. destruct (n0 =? 0) eqn:Hn; simpl; [|done].
    apply Z.eqb_eq in Hn. subst n0. by intros [= -> <-].
  - by destruct (truthy n0).
Qed.

Lemma _call_pipe_captures (r : Runner) (w w1 : World) (kw : kwargs)
      (jr : job_result) :
  _call r w kw FpPIPE = (w1, Return jr) -> is_Some (out_bytes jr).
Proof.
  intros H. apply _call_return_inv in H as (_ & _ & w0 & Hj & _).
  apply job_outcome_return in Hj as (_ & ctx & _ & _ & Hc).
  unfold communicate in Hc. simpl in Hc. injection Hc as -> _. done.
Qed.

(** X5.  When [check_output] returns, the caller gave no [stdout], the
    job's exit code was 0, and the value is the captured stdout of the
    reply: a byte string, never [None]. *)
Theorem check_output_returns_captured (r : Runner) (w w1 : World)
        (kw : kwargs) (v : option bytes) :
  check_output r w kw = (w1, Return v) ->
  k_stdout kw = None /\
  exists jr, _call r w kw FpPIPE = (w1, Return jr) /\
             retcode jr = 0 /\ v = out_bytes jr /\ is_Some v.
Proof.
  unfold check_output. destruct (k_stdout kw); [done|].
  destruct (_call r w kw FpPIPE) as [w0 [jr|e|]] eqn:Hc; [|done|done].
  unfold truthy. destruct (retcode jr =? 0) eqn:Hn; simpl; [|done].
  intros [= -> <-]. split; [done|]. exists jr.
  apply Z.eqb_eq in Hn. repeat split; try done.
  by apply (_call_pipe_captures r w w1 kw).
Qed.

(** X6.  A [CalledProcessError] from [check_output] carries a nonzero
    code, the caller's [args] as its command, and always the captured
    stdout as its output. *)
Theorem check_output_error_carries_output (r : Runner) (w w1 : World)
        (kw : kwargs) (rc : Z) (cmd : pyargs) (out : option bytes) :
  check_output r w kw = (w1, Raise (CalledProcessError rc cmd out)) ->
  rc <> 0 /\ cmd = k_args kw /\ is_Some out /\
  exists jr, _call r w kw FpPIPE = (w1, Return jr) /\
             retcode jr = rc /\ out_bytes jr = out.
Proof.
  unfold check_output. destruct (k_stdout kw); [done|].
  destruct (_call r w kw FpPIPE) as [w0 [jr|e|]] eqn:Hc; [| |done].
  - unfold truthy. destruct (retcode jr =? 0) eqn:Hn; simpl; [done|].
    intros [= -> <- <- <-]. apply Z.eqb_neq in Hn.
    split; [done|]. split; [done|].
    split; [by apply (_call_pipe_captures r w w1 kw)|]. by exists jr.
  - intros [= -> ->].
    pose proof (_call_raises r w kw FpPIPE) as Hr. rewrite Hc in Hr.
    destruct (Hr _ eq_refl) as [H|[H|H]]; discriminate.
Qed.

(** X8.  The worker relays no error.  On an open handle whose worker is
    in its loop, [_call] raises [EOFError] exactly when building or
    starting the job raised in the worker; the worker is then dead of
    that exception without having sent a reply, and every later [_call]
    on the handle, still open, raises [IOError]. *)
Theorem worker_error_is_end_of_stream (r : Runner) (w : World) (kw : kwargs)
        (stdout0 : fp) :
  is_open r -> worker w = Listening ->
  ((_call r w kw stdout0).2 = Raise EOFError <->
   exists e, (job_outcome kw stdout0 w).2 = Raise e) /\
  (forall e, (job_outcome kw stdout0 w).2 = Raise e ->
     worker (_call r w kw stdout0).1 = Crashed e /\
     trace (_call r w kw stdout0).1 = trace (job_outcome kw stdout0 w).1 /\
     forall kw2 stdout2,
       (_call r (_call r w kw stdout0).1 kw2 stdout2).2 = Raise IOError).
Proof.
  intros Ho Hw. rewrite _call_open by done.
  destruct (job_outcome kw stdout0 w) as [w1 [jr|e|]]; simpl.
  - split; [split; [done | by intros [e ?]] | done].
  - split; [split; [by exists e | done]|].
    intros e' [= <-]. split; [done|]. split; [done|].
    intros kw2 stdout2. destruct Ho as [c Hc].
    unfold _call, _expect_connected. rewrite Hc.
    destruct (build_request kw2 stdout2). done.
  - split; [split; [done | by intros [e ?]] | done].
Qed.


(** ** Further properties: descriptors *)

Lemma mkfd_slot_range (fds : list Z) (x : fp) :
  slot_in_range (length (mkfd fds x).2) (mkfd fds x).1 /\
  (length fds <= length (mkfd fds x).2 <= length fds + 1)%nat.
Proof.
  destruct x; simpl; rewrite ?length_app; simpl;
    (split; [|lia]); try done; unfold PIPE, STDOUT; auto; right; right; lia.
Qed.

Lemma slot_in_range_mono (n m : nat) (s : slot) :
  (n <= m)%nat -> slot_in_range n s -> slot_in_range m s.
Proof.
  intros Hnm. destruct s as [|z]; simpl; [done|].
  intros [H|[H|H]]; auto. right; right; lia.
Qed.

(** X9.  [_call] sends at most three descriptors, and every slot of
    the request it sends holds [None], [PIPE], [STDOUT] or an index
    below the count it announces: the worker never looks up an index it
    did not receive a descriptor for. *)
Theorem request_slots_in_range (kw : kwargs) (stdout0 : fp) :
  let rq := (build_request kw stdout0).1 in
  let n := length (build_request kw stdout0).2 in
  (n <= 3)%nat /\
  slot_in_range n (stdin rq) /\ slot_in_range n (stdout rq) /\
  slot_in_range n (stderr rq).
Proof.
  rewrite build_request_eq. cbn [fst snd stdin stdout stderr].
  destruct (mkfd_slot_range [] (k_stdin kw)) as [R1 L1].
  destruct (mkfd_slot_range (mkfd [] (k_stdin kw)).2 stdout0) as [R2 L2].
  destruct (mkfd_slot_range (mkfd (mkfd [] (k_stdin kw)).2 stdout0).2
                            (k_stderr kw)) as [R3 L3].
  simpl in L1. split; [lia|]. split; [|split; [|exact R3]].
  - eapply slot_in_range_mono; [|exact R1]. lia.
  - eapply slot_in_range_mono; [|exact R2]. lia.
Qed.

(** X10.  The worker's descriptor loop gets its map exactly when at
    least [num_fds] descriptors are in flight; with fewer it waits for
    ever.  It takes the first [num_fds] only: what is in flight behind
    them does not change the map. *)
Theorem recv_fds_needs_count (n : nat) (start : Z) (q : list Z) :
  (recv_fds start n q = None <-> (length q < n)%nat) /\
  ((n <= length q)%nat -> recv_fds start n q = recv_fds start n (take n q)).
Proof.
  revert start q. induction n as [|n IH]; intros start q.
  - split; [split; [done | simpl; lia] | done].
  - destruct q as [|fd rest]; simpl.
    + split; [split; [lia | done] | lia].
    + destruct (IH (start + 1) rest) as [Hnone Htake].
      destruct (recv_fds (start + 1) n rest) as [m|] eqn:Hr; simpl.
      * split.
        -- split; [done|]. intros Hlt.
           assert (Hl : (length rest < n)%nat) by lia.
           apply Hnone in Hl. discriminate.
        -- intros Hle. by rewrite <- Htake by lia.
      * assert (Hl : (length rest < n)%nat) by (by apply Hnone).
        split; [split; [intros _; lia | done] | intros Hle; lia].
Qed.


(** ** Further properties: the worker loop *)

Lemma listen_dead (evs : list recv_event) (w : World) :
  worker w <> Listening -> listen evs w = (w, []).
Proof.
  intros Hw. destruct evs as [|ev rest]; [done|]. simpl.
  by destruct (worker w).
Qed.

Lemma worker_cases (w : World) :
  worker w = Listening \/ worker w <> Listening.
Proof. destruct (worker w); auto. Qed.

Lemma listen_cons (ev : recv_event) (evs : list recv_event) (w : World) :
  worker w = Listening ->
  listen (ev :: evs) w
  = ((listen evs (listen_iter ev w).1).1,
     option_list (listen_iter ev w).2 ++ (listen evs (listen_iter ev w).1).2).
Proof.
  intros Hw. simpl. rewrite Hw. destruct (listen_iter ev w) as [w1 r].
  simpl. by destruct (listen evs w1).
Qed.

Lemma listen_split (evs1 evs2 : list recv_event) (w : World) :
  listen (evs1 ++ evs2) w
  = ((listen evs2 (listen evs1 w).1).1,
     (listen evs1 w).2 ++ (listen evs2 (listen evs1 w).1).2).
Proof.
  revert w. induction evs1 as [|ev evs1 IH]; intros w.
  - simpl. by destruct (listen evs2 w).
  - destruct (worker_cases w) as [Hw|Hw].
    + rewrite <- app_comm_cons. rewrite !listen_cons by done.
      rewrite IH. simpl. by rewrite app_assoc.
    + rewrite (listen_dead ((ev :: evs1) ++ evs2)) by done.
      rewrite (listen_dead (ev :: evs1)) by done.
      simpl. by rewrite listen_dead.
Qed.

(** X12.  End-of-stream ends the loop: what arrives after it is never
    read, and a worker that was still in its loop when it came has
    left it cleanly, without a reply. *)
Theorem listen_stops_at_eof (evs1 evs2 : list recv_event) (w : World) :
  listen (evs1 ++ RecvEOF :: evs2) w = listen (evs1 ++ [RecvEOF]) w /\
  (listen (evs1 ++ [RecvEOF]) w).2 = (listen evs1 w).2 /\
  (worker (listen evs1 w).1 = Listening ->
   worker (listen (evs1 ++ [RecvEOF]) w).1 = Exited).
Proof.
  rewrite !listen_split. set (w1 := (listen evs1 w).1).
  destruct (worker_cases w1) as [Hw|Hw].
  - rewrite !listen_cons by done. simpl.
    rewrite listen_dead by done. simpl.
    split; [done|]. split; [by rewrite app_nil_r | done].
  - rewrite (listen_dead (RecvEOF :: evs2) w1) by done.
    rewrite (listen_dead [RecvEOF] w1) by done. simpl.
    split; [done|]. split; [by rewrite app_nil_r | by intros ?].
Qed.

(** X14.  [close()] on an open handle whose worker is in its loop, the
    connection closing without fault: the worker reads end-of-stream and
    leaves its loop cleanly.  A worker that is not in its loop is left
    as it is. *)
Theorem close_ends_worker (cf : close_faults) (r : Runner) (w : World) :
  is_open r ->
  (worker w = Listening -> cnx_close_fault cf = None ->
   worker (close cf r w).1.2 = Exited) /\
  (worker w <> Listening -> worker (close cf r w).1.2 = worker w).
Proof.
  intros [c Hc]. unfold close, _expect_connected. rewrite Hc. simpl. split.
  - intros Hw ->. rewrite Hw. done.
  - intros Hw. destruct (cnx_close_fault cf); [done|].
    by destruct (worker w) eqn:E.
Qed.


(** ** Further properties: the [with] block *)

Lemma close_closed (cf : close_faults) (r : Runner) (w : World) :
  is_closed r -> close cf r w = (r, w, Raise closed_error).
Proof.
  unfold is_closed, close, _expect_connected. by intros ->.
Qed.

Lemma close_gives_closed (cf : close_faults) (r : Runner) (w : World) :
  is_closed (close cf r w).1.1.
Proof.
  destruct (_cnx r) as [c|] eqn:Hc.
  - assert (Ho : is_open r) by (by exists c).
    destruct (close_open cf r w Ho) as (-> & _). done.
  - by rewrite close_closed.
Qed.

Lemma perform_keeps_handle (o : op) (r : Runner) (w : World) :
  (forall cf, o <> OpClose cf) -> (perform o r w).1.1 = r.
Proof.
  intros Hn. destruct o as [cf|kw|kw|kw]; simpl.
  - by destruct (Hn cf).
  - by destruct (call r w kw).
  - by destruct (check_call r w kw).
  - by destruct (check_output r w kw).
Qed.

Lemma perform_closed (o : op) (r : Runner) (w : World) :
  is_closed r ->
  is_closed (perform o r w).1.1 /\ exists e, (perform o r w).2 = Raise e.
Proof.
  intros Hc. destruct o as [cf|kw|kw|kw]; simpl.
  - rewrite close_closed by done. split; [done | by eexists].
  - unfold call. rewrite _call_closed by done. split; [done | by eexists].
  - unfold check_call, call. rewrite _call_closed by done.
    split; [done | by eexists].
  - unfold check_output. destruct (k_stdout kw); [split; [done | by eexists]|].
    rewrite _call_closed by done. split; [done | by eexists].
Qed.

Lemma run_ops_closed (body : list op) (r : Runner) (w : World) :
  is_closed r ->
  is_closed (run_ops body r w).1.1 /\ (run_ops body r w).2 <> Blocks.
Proof.
  intros Hc. destruct body as [|o rest]; [done|]. simpl.
  destruct (perform_closed o r w Hc) as [Hr [e He]].
  destruct (perform o r w) as [[r1 w1] res]. simpl in *. by subst res.
Qed.

Lemma run_ops_no_close (body : list op) (r : Runner) (w : World) :
  no_close body -> (run_ops body r w).1.1 = r.
Proof.
  intros Hn. revert r w. induction Hn as [|o rest Ho _ IH]; intros r w; [done|].
  simpl. pose proof (perform_keeps_handle o r w Ho) as Hk.
  destruct (perform o r w) as [[r1 w1] [[]|e|]]; simpl in *; subst; done.
Qed.

Lemma run_ops_app (ops1 ops2 : list op) (r : Runner) (w : World) :
  (run_ops ops1 r w).2 = Return tt ->
  run_ops (ops1 ++ ops2) r w
  = run_ops ops2 (run_ops ops1 r w).1.1 (run_ops ops1 r w).1.2.
Proof.
  revert r w. induction ops1 as [|o rest IH]; intros r w; [done|]. simpl.
  destruct (perform o r w) as [[r1 w1] [[]|e|]]; simpl; try done. apply IH.
Qed.

(** What [__exit__] makes of a block that left the handle closed. *)
Lemma with_block_exit_on_closed (cf : close_faults) (body : list op)
      (fault : option exn) (r : Runner) (w : World) :
  is_closed (run_ops body r w).1.1 -> (run_ops body r w).2 <> Blocks ->
  (with_block cf body fault r w).2 = Raise closed_error.
Proof.
  unfold with_block, __enter__, __exit__.
  destruct (run_ops body r w) as [[r1 w1] res]. simpl. intros Hc Hb.
  rewrite close_closed by done.
  destruct res as [[]|e|]; [destruct fault|..]; done.
Qed.

(** X15.  A [with] block that ends, in whatever way, leaves the handle
    closed: whether its operations returned or raised, whether the
    caller's own code raised, whether the handle was closed inside the
    block, and whether the library's closes raised. *)
Theorem with_block_closes (cf : close_faults) (body : list op)
        (fault : option exn) (r : Runner) (w : World) :
  (with_block cf body fault r w).2 <> Blocks ->
  is_closed (with_block cf body fault r w).1.1.
Proof.
  unfold with_block, __enter__, __exit__.
  destruct (run_ops body r w) as [[r1 w1] res].
  pose proof (close_gives_closed cf r1 w1) as Hc.
  destruct (close cf r1 w1) as [[r2 w2] cres]. simpl in Hc.
  destruct res as [[]|e|]; [destruct fault|..]; simpl; done.
Qed.

(** X16.  On an open handle, a [with] block that does not close the
    handle itself and whose closes do not fail ends as its body ends:
    it returns if the body returns, raises the caller's own exception if
    the caller's code raised after the operations returned, and raises
    the exception of the first operation that raised. *)
Theorem with_block_propagates (body : list op) (fault : option exn)
        (r : Runner) (w : World) :
  is_open r -> no_close body ->
  ((run_ops body r w).2 = Return tt ->
   (with_block no_faults body fault r w).2
   = match fault with
     | Some e => Raise e
     | None => Return tt
     end) /\
  (forall e, (run_ops body r w).2 = Raise e ->
     (with_block no_faults body fault r w).2 = Raise e).
Proof.
  intros Ho Hn. pose proof (run_ops_no_close body r w Hn) as Hr.
  unfold with_block, __enter__, __exit__.
  destruct (run_ops body r w) as [[r1 w1] res]. simpl in Hr. subst r1.
  destruct (close_open no_faults r w1 Ho) as (_ & _ & Hres).
  destruct (close no_faults r w1) as [[r2 w2] cres]. simpl in Hres. subst cres.
  split.
  - simpl. intros ->. by destruct fault.
  - simpl. intros e ->. done.
Qed.

(** X17.  [close()] is not idempotent inside a [with] block either: on
    an open handle, a block that closes the handle itself (after
    operations that returned) raises [ValueError] when it ends, whatever
    follows the [close()] in the block, and in place of any exception
    of the body. *)
Theorem with_block_after_inner_close (cf cf1 : close_faults)
        (ops1 ops2 : list op) (fault : option exn) (r : Runner) (w : World) :
  is_open r -> no_close ops1 -> (run_ops ops1 r w).2 = Return tt ->
  (with_block cf (ops1 ++ OpClose cf1 :: ops2) fault r w).2
  = Raise closed_error.
Proof.
  intros Ho Hn Hret.
  assert (Hb : is_closed (run_ops (ops1 ++ OpClose cf1 :: ops2) r w).1.1 /\
               (run_ops (ops1 ++ OpClose cf1 :: ops2) r w).2 <> Blocks).
  { rewrite run_ops_app by done. rewrite (run_ops_no_close ops1 r w Hn).
    set (w1 := (run_ops ops1 r w).1.2). simpl.
    pose proof (close_gives_closed cf1 r w1) as Hc.
    destruct (close_open cf1 r w1 Ho) as (_ & _ & Hres).
    destruct (close cf1 r w1) as [[r2 w2] cres]. simpl in Hc, Hres.
    destruct cres as [[]|e|].
    - by apply run_ops_closed.
    - done.
    - destruct (listener_close_fault cf1), (cnx_close_fault cf1); done. }
  destruct Hb as [Hc Hb]. by apply with_block_exit_on_closed.
Qed.

(** ** Further properties: what the script is run with *)

(** X18.  [exec_python] runs the script exactly when an executable can
    be named ([executable], or a first argument) and the pre-exec hook
    returns.  The script then has the caller's arguments as [sys.argv]
    (a string is one argument), runs [executable] when it is given and
    [sys.argv[0]] when not, in the directory asked for. *)
Theorem exec_python_runs_script (rq : request)
        (environ0 : gmap string string) :
  ((exists ctx ce, exec_python rq environ0 = Return (ctx, ce)) <->
   (is_Some (pick_executable rq) /\
    exists environ1, run_hook rq environ0 = Return environ1)) /\
  (forall ctx ce, exec_python rq environ0 = Return (ctx, ce) ->
     argv ctx = arg_list (args rq) /\
     (forall s, args rq = ArgStr s -> argv ctx = [s]) /\
     (forall e, executable rq = Some e -> exe ctx = e) /\
     (executable rq = None -> head (argv ctx) = Some (exe ctx)) /\
     ctx_cwd ctx = cwd rq).
Proof.
  unfold exec_python. split.
  - split.
    + intros (ctx & ce & H).
      destruct (pick_executable rq) as [x|]; [|done].
      destruct (run_hook rq environ0) as [e1| |]; [|done..].
      split; by eexists.
    + intros [[x Hx] [e1 He]]. rewrite Hx, He. by eexists _, _.
  - intros ctx ce H.
    destruct (pick_executable rq) as [x|] eqn:Hx; [|done].
    destruct (run_hook rq environ0) as [e1| |]; [|done..].
    simplify_eq. simpl. unfold pick_executable in Hx.
    split; [done|]. split; [by intros s ->|].
    split; [intros e He; rewrite He in Hx; by simplify_eq|].
    split; [|done]. intros He. by rewrite He in Hx.
Qed.


(** ** Further properties: one reply per request *)

Lemma listen_iter_listening (ev : recv_event) (w : World) :
  worker w = Listening ->
  (worker (listen_iter ev w).1 = Listening <-> is_Some (listen_iter ev w).2).
Proof.
  intros Hw. destruct ev as [|rq n q]; simpl.
  - split; [done | by intros [? ?]].
  - destruct (recv_fds 0 n q) as [m|]; simpl.
    + pose proof (PyPopen_worker rq (Some m) w) as Hp.
      destruct (_PyPopen rq (Some m) w) as [w1 [jr|e|]]; simpl in *.
      * split; [done|]. intros _. by rewrite Hp.
      * split; [done | by intros [? ?]].
      * split; [done | by intros [? ?]].
    + split; [done | by intros [? ?]].
Qed.

(** X19.  Requests and replies alternate strictly.  A worker in its
    loop sends at most one reply per request, and it is still in its
    loop after a stream of requests exactly when it has answered every
    one of them: a request without a reply is the last it reads. *)
Theorem listen_answers_or_stops (evs : list recv_event) (w : World) :
  worker w = Listening ->
  (length (listen evs w).2 <= length evs)%nat /\
  (worker (listen evs w).1 = Listening <->
   length (listen evs w).2 = length evs).
Proof.
  revert w. induction evs as [|ev evs IH]; intros w Hw; [done|].
  rewrite listen_cons by done. simpl.
  pose proof (listen_iter_listening ev w Hw) as Hit.
  destruct (worker_cases (listen_iter ev w).1) as [Hl|Hd].
  - destruct (IH _ Hl) as [Hle Hiff].
    apply Hit in Hl as [jr Hjr]. rewrite Hjr. simpl.
    split; [lia|]. rewrite Hiff. lia.
  - rewrite (listen_dead evs) by done. simpl.
    destruct ((listen_iter ev w).2) as [jr|] eqn:Hr.
    + destruct Hd. apply Hit. by eexists.
    + simpl. split; [lia|]. split; [done | lia].
Qed.

End Lola.

(** ** The theorems at the sample inputs *)

Lemma exit_code_translation_witness :
  exit_arg (exit_translation (BodyResult [] "failing" (SystemExit (PyInt 1)))) = 1
  /\ wait_status
       (exit_arg (exit_translation (BodyResult [] "failing" (SystemExit (PyInt 1)))))
     = 1
  /\ exit_arg (exit_translation
                 (BodyResult [] EmptyString (SystemExit (PyOther "bad input")))) = 1
  /\ stream_text Stderr
       (output (exit_translation
                  (BodyResult [] EmptyString (SystemExit (PyOther "bad input")))))
     = "bad input" +:+ nl
  /\ exit_arg (exit_translation (BodyResult [] EmptyString (Fault "Traceback"))) = 255
  /\ exit_arg (exit_translation (BodyResult [] EmptyString Completed)) = 0.
Proof.
  destruct (exit_code_translation
              (BodyResult [] "failing" (SystemExit (PyInt 1))))
    as (Hint & _).
  destruct (Hint (PyInt 1) 1 eq_refl eq_refl) as (H1 & _ & H2).
  destruct (exit_code_translation
              (BodyResult [] EmptyString (SystemExit (PyOther "bad input"))))
    as (_ & Hreason & _).
  destruct (Hreason "bad input" eq_refl) as (H3 & H4).
  destruct (exit_code_translation
              (BodyResult [] EmptyString (Fault "Traceback")))
    as (_ & _ & Hfault & _).
  destruct (Hfault "Traceback" eq_refl) as (H5 & _).
  destruct (exit_code_translation (BodyResult [] EmptyString Completed))
    as (_ & _ & _ & Hdone).
  destruct (Hdone (or_introl eq_refl)) as (H6 & _).
  refine (conj H1 (conj (H2 _) (conj H3 (conj H4 (conj H5 H6))))). lia.
Defined.

Lemma environment_handling_witness :
  exists ctx,
    exec_python sample_script sample_env_rq (environ sample_world)
    = Return (ctx, exit_translation (sample_script ctx)) /\
    ctx_environ ctx = {["LOLA_ENV_TEST" := "test value"]} /\
    ctx_environ ctx !! "LOLA_ENV_TEST_PARENT" = None.
Proof.
  destruct (environment_handling sample_script sample_env_rq
              (environ sample_world) (environ sample_world))
    as (ctx & He & _ & _ & Hexp).
  - eexists. reflexivity.
  - reflexivity.
  - exists ctx. split; [exact He|].
    destruct (Hexp {["LOLA_ENV_TEST" := "test value"]} eq_refl) as (Heq & Hno).
    split; [exact Heq|]. apply Hno. reflexivity.
Defined.






Lemma shell_request_rejected_in_worker_witness :
  k_shell sample_shell_kw = true /\
  _call sample_script sample_dirs sample_pipe sample_runner sample_world
        sample_shell_kw FpNone
  = (set_worker (Crashed (ValueError EmptyString)) sample_world, Raise EOFError).
Proof.
  split; [reflexivity|].
  destruct (shell_request_rejected_in_worker sample_script sample_dirs sample_pipe
              sample_runner sample_world sample_shell_kw FpNone eq_refl)
    as [_ H].
  destruct H as (Hc & _ & _).
  - eexists; reflexivity.
  - reflexivity.
  - exact Hc.
Defined.

(** C6 as the claim has it fails: a [call] with [shell] set does not
    raise [ValueError] to the caller but [EOFError], the worker is dead
    afterwards, and the next [call] on the handle raises [IOError]. *)
Lemma shell_request_not_reported_to_caller :
  (call sample_script sample_dirs sample_pipe sample_runner sample_world
        sample_shell_kw).2 = Raise EOFError /\
  worker (call sample_script sample_dirs sample_pipe sample_runner sample_world
               sample_shell_kw).1 = Crashed (ValueError EmptyString) /\
  (call sample_script sample_dirs sample_pipe sample_runner
        (call sample_script sample_dirs sample_pipe sample_runner sample_world
              sample_shell_kw).1
        (sample_kw ["test_scripts/success.py"])).2 = Raise IOError /\
  ~ ((exists msg,
        (call sample_script sample_dirs sample_pipe sample_runner sample_world
              sample_shell_kw).2 = Raise (ValueError msg)) /\
     worker (call sample_script sample_dirs sample_pipe sample_runner sample_world
                  sample_shell_kw).1 = Listening).
Proof.
  split; [vm_compute; reflexivity|].
  split; [vm_compute; reflexivity|].
  split; [vm_compute; reflexivity|].
  intros [_ Hw]. vm_compute in Hw. discriminate.
Qed.

Lemma close_succeeds_exactly_once_witness :
  is_open sample_runner /\
  (close sample_script sample_dirs sample_pipe no_faults sample_runner sample_world).2 = Return tt /\
  (step sample_script sample_dirs sample_pipe (OpClose no_faults)
        (close sample_script sample_dirs sample_pipe no_faults sample_runner sample_world).1.1 sample_world).2
  = Some closed_error /\
  (step sample_script sample_dirs sample_pipe
        (OpCall (sample_kw ["test_scripts/success.py"]))
        (close sample_script sample_dirs sample_pipe no_faults sample_runner sample_world).1.1 sample_world).2
  = Some closed_error.
Proof.
  assert (Ho : is_open sample_runner) by (eexists; reflexivity).
  split; [exact Ho|].
  destruct (close_succeeds_exactly_once sample_script sample_dirs sample_pipe
              sample_runner sample_world) as (H & _ & _).
  destruct (H Ho) as (Hr & _ & Hs).
  refine (conj Hr (conj _ _)).
  - rewrite (Hs (OpClose no_faults) sample_world I). reflexivity.
  - rewrite (Hs (OpCall (sample_kw ["test_scripts/success.py"]))
                sample_world I).
    reflexivity.
Defined.

Lemma close_always_reaches_closed_witness :
  is_open sample_runner /\
  (close sample_script sample_dirs sample_pipe sample_faults sample_runner sample_world).2 = Raise IOError /\
  _cnx (close sample_script sample_dirs sample_pipe sample_faults sample_runner sample_world).1.1 = None /\
  (step sample_script sample_dirs sample_pipe
        (OpCall (sample_kw ["test_scripts/success.py"]))
        (close sample_script sample_dirs sample_pipe sample_faults sample_runner sample_world).1.1 sample_world).2
  = Some closed_error.
Proof.
  assert (Ho : is_open sample_runner) by (eexists; reflexivity).
  split; [exact Ho|].
  destruct (close_always_reaches_closed sample_script sample_dirs sample_pipe
              sample_faults sample_runner sample_world Ho)
    as (Hc & _ & _ & Hres & Hs).
  refine (conj Hres (conj Hc _)).
  rewrite (Hs (OpCall (sample_kw ["test_scripts/success.py"])) sample_world I).
  reflexivity.
Defined.

(** ** Where the claims fail as they are worded *)





(** ** The further properties at the sample inputs *)



Lemma check_call_returns_only_zero_witness :
  (check_call sample_script sample_dirs sample_pipe sample_runner sample_world
              (sample_kw ["test_scripts/success.py"])).2 = Return 0 /\
  0 = 0 /\
  (call sample_script sample_dirs sample_pipe sample_runner sample_world
        (sample_kw ["test_scripts/success.py"])).2 = Return 0.
Proof.
  split; [vm_compute; reflexivity|].
  destruct (check_call_returns_only_zero sample_script sample_dirs sample_pipe
              sample_runner sample_world
              (sample_kw ["test_scripts/success.py"])) as [H _].
  destruct (H (check_call sample_script sample_dirs sample_pipe sample_runner sample_world
                 (sample_kw ["test_scripts/success.py"])).1 0) as [Hz Hc].
  - vm_compute. reflexivity.
  - split; [exact Hz|]. rewrite Hc. reflexivity.
Defined.

Lemma check_output_returns_captured_witness :
  k_stdout sample_merge_kw = None /\
  exists jr,
    _call sample_script sample_dirs sample_pipe sample_runner sample_world
          sample_merge_kw FpPIPE
    = ((check_output sample_script sample_dirs sample_pipe sample_runner sample_world
                     sample_merge_kw).1, Return jr) /\
    retcode jr = 0 /\
    Some ("outputting" +:+ nl +:+ "erroring" +:+ nl) = out_bytes jr /\
    is_Some (Some ("outputting" +:+ nl +:+ "erroring" +:+ nl)).
Proof.
  apply (check_output_returns_captured sample_script sample_dirs sample_pipe
           sample_runner sample_world).
  vm_compute. reflexivity.
Defined.

Lemma check_output_error_carries_output_witness :
  1 <> 0 /\
  ArgList ["test_scripts/fail.py"] = k_args (sample_kw ["test_scripts/fail.py"]) /\
  is_Some (Some "failing").
Proof.
  destruct (check_output_error_carries_output sample_script sample_dirs sample_pipe
              sample_runner sample_world
              (check_output sample_script sample_dirs sample_pipe sample_runner
                 sample_world (sample_kw ["test_scripts/fail.py"])).1
              (sample_kw ["test_scripts/fail.py"]) 1
              (ArgList ["test_scripts/fail.py"]) (Some "failing"))
    as (H1 & H2 & H3 & _).
  - vm_compute. reflexivity.
  - exact (conj H1 (conj H2 H3)).
Defined.

Lemma worker_error_is_end_of_stream_witness :
  is_open sample_runner /\ worker sample_world = Listening /\
  (_call sample_script sample_dirs sample_pipe sample_runner sample_world
         sample_shell_kw FpNone).2 = Raise EOFError /\
  worker (_call sample_script sample_dirs sample_pipe sample_runner sample_world
                sample_shell_kw FpNone).1 = Crashed (ValueError EmptyString).
Proof.
  assert (Ho : is_open sample_runner) by (eexists; reflexivity).
  split; [exact Ho|]. split; [reflexivity|].
  destruct (worker_error_is_end_of_stream sample_script sample_dirs sample_pipe
              sample_runner sample_world sample_shell_kw FpNone Ho eq_refl)
    as [Hiff Hdead].
  split.
  - apply Hiff. exists (ValueError EmptyString). vm_compute. reflexivity.
  - destruct (Hdead (ValueError EmptyString)) as (Hw & _).
    + vm_compute. reflexivity.
    + exact Hw.
Defined.

Lemma recv_fds_needs_count_witness :
  (2 <= length [7; 8; 9])%nat /\
  recv_fds 0 2 [7; 8; 9] = recv_fds 0 2 [7; 8] /\
  recv_fds 0 2 [7] = None.
Proof.
  destruct (recv_fds_needs_count 2 0 [7; 8; 9]) as [_ Htake].
  destruct (recv_fds_needs_count 2 0 [7]) as [[_ Hnone] _].
  split; [simpl; lia|]. split.
  - apply Htake. simpl. lia.
  - apply Hnone. simpl. lia.
Defined.

Lemma listen_stops_at_eof_witness :
  worker (listen sample_script sample_dirs sample_pipe [] sample_world).1 = Listening /\
  worker (listen sample_script sample_dirs sample_pipe ([] ++ [RecvEOF]) sample_world).1
  = Exited.
Proof.
  split; [reflexivity|].
  destruct (listen_stops_at_eof sample_script sample_dirs sample_pipe [] [] sample_world)
    as (_ & _ & H).
  apply H. reflexivity.
Defined.

Lemma close_ends_worker_witness :
  is_open sample_runner /\ worker sample_world = Listening /\
  cnx_close_fault no_faults = None /\
  worker (close sample_script sample_dirs sample_pipe no_faults sample_runner
                sample_world).1.2 = Exited.
Proof.
  assert (Ho : is_open sample_runner) by (eexists; reflexivity).
  split; [exact Ho|]. split; [reflexivity|]. split; [reflexivity|].
  destruct (close_ends_worker sample_script sample_dirs sample_pipe no_faults
              sample_runner sample_world Ho) as [H _].
  apply H; reflexivity.
Defined.

Lemma with_block_closes_witness :
  (with_block sample_script sample_dirs sample_pipe sample_faults
              [OpCheckCall (sample_kw ["test_scripts/fail.py"])]
              (Some IndexError) sample_runner sample_world).2 <> Blocks /\
  is_closed (with_block sample_script sample_dirs sample_pipe sample_faults
               [OpCheckCall (sample_kw ["test_scripts/fail.py"])]
               (Some IndexError) sample_runner sample_world).1.1.
Proof.
  assert (H : (with_block sample_script sample_dirs sample_pipe sample_faults
                 [OpCheckCall (sample_kw ["test_scripts/fail.py"])]
                 (Some IndexError) sample_runner sample_world).2 <> Blocks)
    by (vm_compute; discriminate).
  split; [exact H|].
  apply (with_block_closes sample_script sample_dirs sample_pipe). exact H.
Defined.

Lemma with_block_propagates_witness :
  is_open sample_runner /\
  no_close [OpCall (sample_kw ["test_scripts/fail.py"])] /\
  (with_block sample_script sample_dirs sample_pipe no_faults
              [OpCall (sample_kw ["test_scripts/fail.py"])]
              (Some IndexError) sample_runner sample_world).2
  = Raise IndexError /\
  (with_block sample_script sample_dirs sample_pipe no_faults
              [OpCheckCall (sample_kw ["test_scripts/fail.py"])]
              None sample_runner sample_world).2
  = Raise (CalledProcessError 1 (ArgList ["test_scripts/fail.py"]) None).
Proof.
  assert (Ho : is_open sample_runner) by (eexists; reflexivity).
  assert (Hn : forall o, (forall cf, o <> OpClose cf) -> no_close [o])
    by (intros o Hne; repeat constructor; exact Hne).
  split; [exact Ho|]. split; [apply Hn; discriminate|]. split.
  - destruct (with_block_propagates sample_script sample_dirs sample_pipe
                [OpCall (sample_kw ["test_scripts/fail.py"])]
                (Some IndexError) sample_runner sample_world Ho) as [H _].
    + apply Hn. discriminate.
    + apply H. vm_compute. reflexivity.
  - destruct (with_block_propagates sample_script sample_dirs sample_pipe
                [OpCheckCall (sample_kw ["test_scripts/fail.py"])]
                None sample_runner sample_world Ho) as [_ H].
    + apply Hn. discriminate.
    + apply H. vm_compute. reflexivity.
Defined.

Lemma with_block_after_inner_close_witness :
  is_open sample_runner /\
  (with_block sample_script sample_dirs sample_pipe no_faults
              ([OpCall (sample_kw ["test_scripts/success.py"])]
               ++ OpClose no_faults :: [])
              None sample_runner sample_world).2
  = Raise closed_error.
Proof.
  assert (Ho : is_open sample_runner) by (eexists; reflexivity).
  split; [exact Ho|].
  apply (with_block_after_inner_close sample_script sample_dirs sample_pipe).
  - exact Ho.
  - repeat constructor. discriminate.
  - vm_compute. reflexivity.
Defined.

Lemma exec_python_runs_script_witness :
  exists ctx ce,
    exec_python sample_script sample_str_rq (environ sample_world)
    = Return (ctx, ce) /\
    argv ctx = ["job"] /\ exe ctx = "test_scripts/success.py".
Proof.
  destruct (exec_python_runs_script sample_script sample_str_rq
              (environ sample_world)) as [[_ Hrun] Hctx].
  destruct Hrun as (ctx & ce & He).
  - split; [by eexists | eexists; reflexivity].
  - exists ctx, ce. split; [exact He|].
    destruct (Hctx ctx ce He) as (_ & Hs & Hx & _).
    split; [by apply Hs | by apply Hx].
Defined.

Lemma listen_answers_or_stops_witness :
  worker sample_world = Listening /\
  (length (listen sample_script sample_dirs sample_pipe
                  [RecvMsg sample_env_rq 0 []; RecvEOF;
                   RecvMsg sample_env_rq 0 []] sample_world).2 <= 3)%nat /\
  worker (listen sample_script sample_dirs sample_pipe
                 [RecvMsg sample_env_rq 0 []] sample_world).1 = Listening.
Proof.
  split; [reflexivity|]. split.
  - apply (listen_answers_or_stops sample_script sample_dirs sample_pipe
             [RecvMsg sample_env_rq 0 []; RecvEOF; RecvMsg sample_env_rq 0 []]
             sample_world eq_refl).
  - apply (listen_answers_or_stops sample_script sample_dirs sample_pipe
             [RecvMsg sample_env_rq 0 []] sample_world eq_refl).
    vm_compute. reflexivity.
Defined.
